(** * RectTransformationCalculator

    A shallow embedding of
    [mediapipe/calculators/util/rect_transformation_calculator.cc].

    Numbers.  The calculator computes on C++ [float]s (and on [double]s where
    [M_PI] takes part).  Rounding, infinities and NaN are left out: a [float]
    is a real number here, [M_PI] is [PI], [std::cos] / [std::sin] are [cos] /
    [sin], [std::floor] is [Zfloor] and the conversion of an [int] to a
    [float] is [IZR].  Every statement below is a statement about that exact
    arithmetic. *)

From Stdlib Require Import Reals ZArith Bool List Lra Lia.
Import ListNotations.

Local Open Scope R_scope.

(** ** Library functions the calculator calls *)

(** [std::floor], returned as a real again. *)
Definition std_floor (x : R) : R := IZR (Zfloor x).

(** [std::max (a, b)] is [(a < b) ? b : a]. *)
Definition std_max (a b : R) : R := if Rlt_dec a b then b else a.

(** [std::min (a, b)] is [(b < a) ? b : a]. *)
Definition std_min (a b : R) : R := if Rlt_dec b a then b else a.

(** ** Messages *)

(** Modelled from the spec: the message types [Rect] and [NormalizedRect] are
    declared in [rect.pb.h], which is not among the sources.  The spec gives
    both variants the same fields (centre, size, rotation), differing in
    units only.  Each [set_] function is the generated setter: it writes one
    field and leaves the others alone. *)
Module Rect.

Record t : Type := Build {
  x_center : R;
  y_center : R;
  width : R;
  height : R;
  rotation : R
}.

Definition set_x_center (r : t) (v : R) : t :=
  Build v (y_center r) (width r) (height r) (rotation r).
Definition set_y_center (r : t) (v : R) : t :=
  Build (x_center r) v (width r) (height r) (rotation r).
Definition set_width (r : t) (v : R) : t :=
  Build (x_center r) (y_center r) v (height r) (rotation r).
Definition set_height (r : t) (v : R) : t :=
  Build (x_center r) (y_center r) (width r) v (rotation r).

End Rect.

Module NormalizedRect.

Record t : Type := Build {
  x_center : R;
  y_center : R;
  width : R;
  height : R;
  rotation : R
}.

Definition set_x_center (r : t) (v : R) : t :=
  Build v (y_center r) (width r) (height r) (rotation r).
Definition set_y_center (r : t) (v : R) : t :=
  Build (x_center r) v (width r) (height r) (rotation r).
Definition set_width (r : t) (v : R) : t :=
  Build (x_center r) (y_center r) v (height r) (rotation r).
Definition set_height (r : t) (v : R) : t :=
  Build (x_center r) (y_center r) (width r) v (rotation r).

End NormalizedRect.

(** Modelled from the spec: [RectTransformationCalculatorOptions] is declared
    in [rect_transformation_calculator.pb.h], which is not among the sources.
    The four options whose presence the calculator tests ([has_rotation],
    [has_rotation_degrees], [has_square_long], [has_square_short]) are
    optional fields; reading an absent one yields its default (no rotation
    change, no squaring).  Shifts and scales are only ever read, so they are
    kept as the values their getters return. *)
Module Options.

Record t : Type := Build {
  scale_x : R;
  scale_y : R;
  rotation_field : option R;
  rotation_degrees_field : option R;
  shift_x : R;
  shift_y : R;
  square_long_field : option bool;
  square_short_field : option bool
}.

Definition is_set {A : Type} (f : option A) : bool :=
  match f with Some _ => true | None => false end.

Definition get {A : Type} (dflt : A) (f : option A) : A :=
  match f with Some v => v | None => dflt end.

Definition has_rotation (o : t) : bool := is_set (rotation_field o).
Definition rotation (o : t) : R := get 0 (rotation_field o).
Definition has_rotation_degrees (o : t) : bool :=
  is_set (rotation_degrees_field o).
Definition rotation_degrees (o : t) : R := get 0 (rotation_degrees_field o).
Definition has_square_long (o : t) : bool := is_set (square_long_field o).
Definition square_long (o : t) : bool := get false (square_long_field o).
Definition has_square_short (o : t) : bool := is_set (square_short_field o).
Definition square_short (o : t) : bool := get false (square_short_field o).

End Options.

(** ** The anonymous namespace *)

(** Wraps around an angle in radians to within -M_PI and M_PI. *)
Definition NormalizeRadians (angle : R) : R :=
  angle - 2 * PI * std_floor ((angle - (- PI)) / (2 * PI)).

(** ** The calculator *)

(** A [::mediapipe::Status]: [OkStatus ()], or the error a failed [RET_CHECK]
    returns. *)
Inductive Status : Type :=
| OkStatus
| RetCheckFailure.

(** [RET_CHECK (cond); rest]: the macro returns the error at once when
    [cond] is false and goes on with [rest] otherwise. *)
Definition RET_CHECK (cond : bool) (rest : Status) : Status :=
  if cond then rest else RetCheckFailure.

(** A packet added to output stream 0, with the timestamp it is put at. *)
Inductive OutputPacket : Type :=
| RectPacket (rect : Rect.t) (at_ : Z)
| NormalizedRectPacket (rect : NormalizedRect.t) (at_ : Z).

(** What the calculator reads from its [CalculatorContext].  An input stream
    is [None] when the graph has no such tag, [Some None] when the tag is
    there and its packet is empty at this timestamp, [Some (Some v)] when the
    packet holds [v].  [GetContract] asks for IMAGE_SIZE whenever NORM_RECT is
    there, and the image size comes with each normalized rectangle, so
    [IMAGE_SIZE] is the pair that [Get] returns. *)
Record CalculatorContext : Type := {
  cc_Options : Options.t;
  cc_InputTimestamp : Z;
  cc_RECT : option (option Rect.t);
  cc_NORM_RECT : option (option NormalizedRect.t);
  cc_IMAGE_SIZE : Z * Z
}.

(** [Open]: stores the options in the member [options_] (the second
    component) and checks them.  [SetOffset] only concerns the scheduler. *)
Definition Open (cc : CalculatorContext) : Status * Options.t :=
  let options_ := cc_Options cc in
  (RET_CHECK (negb (Options.has_rotation options_
                    && Options.has_rotation_degrees options_))
     (RET_CHECK (negb (Options.has_square_long options_
                       && Options.has_square_short options_))
        OkStatus),
   options_).

Section Calculator.

(** The private member [options_]. *)
Variable options_ : Options.t.

Definition ComputeNewRotation (rotation : R) : R :=
  let rotation :=
    if Options.has_rotation options_ then
      rotation + Options.rotation options_
    else if Options.has_rotation_degrees options_ then
      rotation + PI * Options.rotation_degrees options_ / 180
    else rotation in
  NormalizeRadians rotation.

Definition TransformRect (rect : Rect.t) : Rect.t :=
  let width := Rect.width rect in
  let height := Rect.height rect in
  let rotation := Rect.rotation rect in
  let rotation :=
    if Options.has_rotation options_
       || Options.has_rotation_degrees options_
    then ComputeNewRotation rotation else rotation in
  let rect :=
    if Req_dec_T rotation 0 then
      let rect :=
        Rect.set_x_center rect
          (Rect.x_center rect + width * Options.shift_x options_) in
      Rect.set_y_center rect
        (Rect.y_center rect + height * Options.shift_y options_)
    else
      let x_shift :=
        width * Options.shift_x options_ * cos rotation
        - height * Options.shift_y options_ * sin rotation in
      let y_shift :=
        width * Options.shift_x options_ * sin rotation
        + height * Options.shift_y options_ * cos rotation in
      let rect := Rect.set_x_center rect (Rect.x_center rect + x_shift) in
      Rect.set_y_center rect (Rect.y_center rect + y_shift) in
  let '(width, height) :=
    if Options.square_long options_ then
      let long_side := std_max width height in
      (long_side, long_side)
    else if Options.square_short options_ then
      let short_side := std_min width height in
      (short_side, short_side)
    else (width, height) in
  let rect := Rect.set_width rect (width * Options.scale_x options_) in
  Rect.set_height rect (height * Options.scale_y options_).

Definition TransformNormalizedRect (rect : NormalizedRect.t)
    (image_width image_height : Z) : NormalizedRect.t :=
  let width := NormalizedRect.width rect in
  let height := NormalizedRect.height rect in
  let rotation := NormalizedRect.rotation rect in
  let rotation :=
    if Options.has_rotation options_
       || Options.has_rotation_degrees options_
    then ComputeNewRotation rotation else rotation in
  let rect :=
    if Req_dec_T rotation 0 then
      let rect :=
        NormalizedRect.set_x_center rect
          (NormalizedRect.x_center rect
           + width * Options.shift_x options_) in
      NormalizedRect.set_y_center rect
        (NormalizedRect.y_center rect + height * Options.shift_y options_)
    else
      let x_shift :=
        (IZR image_width * width * Options.shift_x options_ * cos rotation
         - IZR image_height * height * Options.shift_y options_
           * sin rotation)
        / IZR image_width in
      let y_shift :=
        (IZR image_width * width * Options.shift_x options_ * sin rotation
         + IZR image_height * height * Options.shift_y options_
           * cos rotation)
        / IZR image_height in
      let rect :=
        NormalizedRect.set_x_center rect
          (NormalizedRect.x_center rect + x_shift) in
      NormalizedRect.set_y_center rect
        (NormalizedRect.y_center rect + y_shift) in
  let '(width, height) :=
    if Options.square_long options_ then
      let long_side :=
        std_max (width * IZR image_width) (height * IZR image_height) in
      (long_side / IZR image_width, long_side / IZR image_height)
    else if Options.square_short options_ then
      let short_side :=
        std_min (width * IZR image_width) (height * IZR image_height) in
      (short_side / IZR image_width, short_side / IZR image_height)
    else (width, height) in
  let rect :=
    NormalizedRect.set_width rect (width * Options.scale_x options_) in
  NormalizedRect.set_height rect (height * Options.scale_y options_).

(** [Process]: the status it returns and the packets it adds to output 0,
    in order. *)
Definition Process (cc : CalculatorContext) : Status * list OutputPacket :=
  let out1 :=
    match cc_RECT cc with
    | Some (Some rect) =>
        [RectPacket (TransformRect rect) (cc_InputTimestamp cc)]
    | _ => []
    end in
  let out2 :=
    match cc_NORM_RECT cc with
    | Some (Some rect) =>
        let image_size := cc_IMAGE_SIZE cc in
        [NormalizedRectPacket
           (TransformNormalizedRect rect (fst image_size) (snd image_size))
           (cc_InputTimestamp cc)]
    | _ => []
    end in
  (OkStatus, out1 ++ out2).

(** *** The shift without its zero-rotation branch

    The two transforms again, with the test [rotation == 0.f] taken out
    and the rotated shift used for every angle.  Nothing else differs. *)

Definition TransformRect_always_rotated (rect : Rect.t) : Rect.t :=
  let width := Rect.width rect in
  let height := Rect.height rect in
  let rotation := Rect.rotation rect in
  let rotation :=
    if Options.has_rotation options_
       || Options.has_rotation_degrees options_
    then ComputeNewRotation rotation else rotation in
  let rect :=
    let x_shift :=
      width * Options.shift_x options_ * cos rotation
      - height * Options.shift_y options_ * sin rotation in
    let y_shift :=
      width * Options.shift_x options_ * sin rotation
      + height * Options.shift_y options_ * cos rotation in
    let rect := Rect.set_x_center rect (Rect.x_center rect + x_shift) in
    Rect.set_y_center rect (Rect.y_center rect + y_shift) in
  let '(width, height) :=
    if Options.square_long options_ then
      let long_side := std_max width height in
      (long_side, long_side)
    else if Options.square_short options_ then
      let short_side := std_min width height in
      (short_side, short_side)
    else (width, height) in
  let rect := Rect.set_width rect (width * Options.scale_x options_) in
  Rect.set_height rect (height * Options.scale_y options_).

Definition TransformNormalizedRect_always_rotated
    (rect : NormalizedRect.t) (image_width image_height : Z)
    : NormalizedRect.t :=
  let width := NormalizedRect.width rect in
  let height := NormalizedRect.height rect in
  let rotation := NormalizedRect.rotation rect in
  let rotation :=
    if Options.has_rotation options_
       || Options.has_rotation_degrees options_
    then ComputeNewRotation rotation else rotation in
  let rect :=
    let x_shift :=
      (IZR image_width * width * Options.shift_x options_ * cos rotation
       - IZR image_height * height * Options.shift_y options_
         * sin rotation)
      / IZR image_width in
    let y_shift :=
      (IZR image_width * width * Options.shift_x options_ * sin rotation
       + IZR image_height * height * Options.shift_y options_
         * cos rotation)
      / IZR image_height in
    let rect :=
      NormalizedRect.set_x_center rect
        (NormalizedRect.x_center rect + x_shift) in
    NormalizedRect.set_y_center rect
      (NormalizedRect.y_center rect + y_shift) in
  let '(width, height) :=
    if Options.square_long options_ then
      let long_side :=
        std_max (width * IZR image_width) (height * IZR image_height) in
      (long_side / IZR image_width, long_side / IZR image_height)
    else if Options.square_short options_ then
      let short_side :=
        std_min (width * IZR image_width) (height * IZR image_height) in
      (short_side / IZR image_width, short_side / IZR image_height)
    else (width, height) in
  let rect :=
    NormalizedRect.set_width rect (width * Options.scale_x options_) in
  NormalizedRect.set_height rect (height * Options.scale_y options_).

End Calculator.

(** ** Vocabulary of the specification *)

(** The rotation delta of a configuration, in radians: the option in radians
    when it is set, otherwise the option in degrees converted by
    [PI * degrees / 180], otherwise none.  A configuration that passes [Open]
    sets at most one of the two. *)
Definition rotation_delta (o : Options.t) : option R :=
  match Options.rotation_field o, Options.rotation_degrees_field o with
  | Some d, _ => Some d
  | None, Some g => Some (PI * g / 180)
  | None, None => None
  end.

(** Step 1 of the specification: the rotation wrapped after the delta was
    added when the configuration has one, the rotation as it is otherwise. *)
Definition effective_rotation (o : Options.t) (r : R) : R :=
  match rotation_delta o with
  | Some d => NormalizeRadians (r + d)
  | None => r
  end.

(** Step 2 of the specification for a rectangle in pixels: the shift of the
    centre at angle [a], for local amounts [sx] and [sy]. *)
Definition rotated_shift (a sx sy : R) : R * R :=
  if Req_dec_T a 0 then (sx, sy)
  else (sx * cos a - sy * sin a, sx * sin a + sy * cos a).

(** The same for a normalized rectangle: the local amounts are taken in
    pixels and each component goes back through its own image dimension. *)
Definition rotated_shift_normalized (a w h sx sy imgW imgH : R) : R * R :=
  if Req_dec_T a 0 then (sx * w, sy * h)
  else
    let dx_px := w * imgW * sx in
    let dy_px := h * imgH * sy in
    ((dx_px * cos a - dy_px * sin a) / imgW,
     (dx_px * sin a + dy_px * cos a) / imgH).

(** ** Inputs of the examples *)

(** [shift_x: 1  shift_y: 0  scale_x: 2  scale_y: 2]. *)
Definition shift_scale_options : Options.t :=
  Options.Build 2 2 None None 1 0 None None.

(** [square_long: true  scale_x: 1  scale_y: 1]. *)
Definition square_long_options : Options.t :=
  Options.Build 1 1 None None 0 0 (Some true) None.

(** [square_short: true]. *)
Definition square_short_options : Options.t :=
  Options.Build 1 1 None None 0 0 None (Some true).

(** [rotation: 1], a delta of one radian. *)
Definition one_radian_options : Options.t :=
  Options.Build 1 1 (Some 1) None 0 0 None None.

Definition context_of (o : Options.t) : CalculatorContext :=
  {| cc_Options := o; cc_InputTimestamp := 0%Z; cc_RECT := None;
     cc_NORM_RECT := None; cc_IMAGE_SIZE := (1%Z, 1%Z) |}.

Definition rect_10_20 : Rect.t := Rect.Build 0 0 10 20 0.

Definition norm_rect_example : NormalizedRect.t :=
  NormalizedRect.Build 0.5 0.5 0.2 0.1 0.

(** A normalized rectangle at rotation 1. *)
Definition norm_rect_turned : NormalizedRect.t :=
  NormalizedRect.Build 0.5 0.5 0.2 0.1 1.

(** [shift_x: 0.5  shift_y: 0.25]. *)
Definition shift_options : Options.t :=
  Options.Build 1 1 None None 0.5 0.25 None None.

(** ** The contract of the calculator *)

(** The packet types [GetContract] declares with [Set<T> ()]: [Rect],
    [NormalizedRect] and [std::pair<int, int>]. *)
Inductive PacketType : Type :=
| RectType
| NormalizedRectType
| IntPairType.

(** What [GetContract] reads and writes in its [CalculatorContract]: which of
    the three input tags the node has, and the type declared so far for each
    of these inputs and for output 0 ([None] while none is declared). *)
Record CalculatorContract : Type := {
  ct_has_NORM_RECT : bool;
  ct_has_RECT : bool;
  ct_has_IMAGE_SIZE : bool;
  ct_NORM_RECT_type : option PacketType;
  ct_RECT_type : option PacketType;
  ct_IMAGE_SIZE_type : option PacketType;
  ct_output0_type : option PacketType
}.

Definition set_NORM_RECT_type (ct : CalculatorContract) (ty : PacketType)
    : CalculatorContract :=
  {| ct_has_NORM_RECT := ct_has_NORM_RECT ct;
     ct_has_RECT := ct_has_RECT ct;
     ct_has_IMAGE_SIZE := ct_has_IMAGE_SIZE ct;
     ct_NORM_RECT_type := Some ty;
     ct_RECT_type := ct_RECT_type ct;
     ct_IMAGE_SIZE_type := ct_IMAGE_SIZE_type ct;
     ct_output0_type := ct_output0_type ct |}.

Definition set_RECT_type (ct : CalculatorContract) (ty : PacketType)
    : CalculatorContract :=
  {| ct_has_NORM_RECT := ct_has_NORM_RECT ct;
     ct_has_RECT := ct_has_RECT ct;
     ct_has_IMAGE_SIZE := ct_has_IMAGE_SIZE ct;
     ct_NORM_RECT_type := ct_NORM_RECT_type ct;
     ct_RECT_type := Some ty;
     ct_IMAGE_SIZE_type := ct_IMAGE_SIZE_type ct;
     ct_output0_type := ct_output0_type ct |}.

Definition set_IMAGE_SIZE_type (ct : CalculatorContract) (ty : PacketType)
    : CalculatorContract :=
  {| ct_has_NORM_RECT := ct_has_NORM_RECT ct;
     ct_has_RECT := ct_has_RECT ct;
     ct_has_IMAGE_SIZE := ct_has_IMAGE_SIZE ct;
     ct_NORM_RECT_type := ct_NORM_RECT_type ct;
     ct_RECT_type := ct_RECT_type ct;
     ct_IMAGE_SIZE_type := Some ty;
     ct_output0_type := ct_output0_type ct |}.

Definition set_output0_type (ct : CalculatorContract) (ty : PacketType)
    : CalculatorContract :=
  {| ct_has_NORM_RECT := ct_has_NORM_RECT ct;
     ct_has_RECT := ct_has_RECT ct;
     ct_has_IMAGE_SIZE := ct_has_IMAGE_SIZE ct;
     ct_NORM_RECT_type := ct_NORM_RECT_type ct;
     ct_RECT_type := ct_RECT_type ct;
     ct_IMAGE_SIZE_type := ct_IMAGE_SIZE_type ct;
     ct_output0_type := Some ty |}.

(** [GetContract]: the status it returns and the contract as it leaves it.
    A failed [RET_CHECK] returns at once, with what was declared before. *)
Definition GetContract (cc : CalculatorContract)
    : Status * CalculatorContract :=
  if negb (xorb (ct_has_NORM_RECT cc) (ct_has_RECT cc)) then
    (RetCheckFailure, cc)
  else
    let cc :=
      if ct_has_RECT cc then
        set_output0_type (set_RECT_type cc RectType) RectType
      else cc in
    if ct_has_NORM_RECT cc then
      if negb (ct_has_IMAGE_SIZE cc) then (RetCheckFailure, cc)
      else
        let cc := set_NORM_RECT_type cc NormalizedRectType in
        let cc := set_IMAGE_SIZE_type cc IntPairType in
        let cc := set_output0_type cc NormalizedRectType in
        (OkStatus, cc)
    else (OkStatus, cc).

(** ** Reading packets and units *)

(** The type of the value an output packet holds, and the timestamp it was
    put at. *)
Definition packet_type (p : OutputPacket) : PacketType :=
  match p with
  | RectPacket _ _ => RectType
  | NormalizedRectPacket _ _ => NormalizedRectType
  end.

Definition packet_timestamp (p : OutputPacket) : Z :=
  match p with
  | RectPacket _ ts => ts
  | NormalizedRectPacket _ ts => ts
  end.

(** One for a stream whose packet holds a value at this timestamp, zero for
    an absent tag or an empty packet. *)
Definition holds_value {A : Type} (stream : option (option A)) : nat :=
  match stream with
  | Some (Some _) => 1
  | _ => 0
  end.

(** A normalized rectangle read in pixels of an image: each coordinate and
    each side multiplied by the image dimension of its own axis.  Not a
    function of the calculator; the unit conversion the comparison of its
    two transforms needs. *)
Definition to_pixels (rect : NormalizedRect.t) (image_width image_height : Z)
    : Rect.t :=
  Rect.Build
    (NormalizedRect.x_center rect * IZR image_width)
    (NormalizedRect.y_center rect * IZR image_height)
    (NormalizedRect.width rect * IZR image_width)
    (NormalizedRect.height rect * IZR image_height)
    (NormalizedRect.rotation rect).

(** The rotation delta of a configuration, zero when it has none. *)
Definition delta_or_zero (o : Options.t) : R :=
  match rotation_delta o with
  | Some d => d
  | None => 0
  end.

(** Two configurations that differ in their rotation options at most. *)
Definition same_but_rotation (o1 o2 : Options.t) : Prop :=
  Options.scale_x o1 = Options.scale_x o2
  /\ Options.scale_y o1 = Options.scale_y o2
  /\ Options.shift_x o1 = Options.shift_x o2
  /\ Options.shift_y o1 = Options.shift_y o2
  /\ Options.square_long o1 = Options.square_long o2
  /\ Options.square_short o1 = Options.square_short o2.

(** ** More inputs of examples *)

(** No option set, scales at 1. *)
Definition identity_options : Options.t :=
  Options.Build 1 1 None None 0 0 None None.

(** [rotation_degrees: 90  shift_x: 0.5  shift_y: 0.25]. *)
Definition quarter_turn_options : Options.t :=
  Options.Build 1 1 None (Some 90) 0.5 0.25 None None.

(** [rotation_degrees: 450  shift_x: 0.5  shift_y: 0.25]. *)
Definition five_quarter_turn_options : Options.t :=
  Options.Build 1 1 None (Some 450) 0.5 0.25 None None.

(** A node with NORM_RECT and IMAGE_SIZE, nothing declared yet. *)
Definition norm_rect_contract : CalculatorContract :=
  {| ct_has_NORM_RECT := true; ct_has_RECT := false;
     ct_has_IMAGE_SIZE := true; ct_NORM_RECT_type := None;
     ct_RECT_type := None; ct_IMAGE_SIZE_type := None;
     ct_output0_type := None |}.

(** A record of that node: a normalized rectangle in a 100 x 50 image. *)
Definition norm_rect_record : CalculatorContext :=
  {| cc_Options := square_long_options; cc_InputTimestamp := 7%Z;
     cc_RECT := None; cc_NORM_RECT := Some (Some norm_rect_example);
     cc_IMAGE_SIZE := (100%Z, 50%Z) |}.

(** ** Proof steps shared by the lemmas on the transforms *)

Ltac unfold_transform :=
  unfold TransformRect, TransformNormalizedRect,
    TransformRect_always_rotated, TransformNormalizedRect_always_rotated.

Ltac split_cases :=
  repeat match goal with
         | |- context [Req_dec_T ?a ?b] => destruct (Req_dec_T a b)
         | |- context [if Options.square_long ?o then _ else _] =>
             destruct (Options.square_long o)
         | |- context [if Options.square_short ?o then _ else _] =>
             destruct (Options.square_short o)
         end.

(** ** Properties of the library functions *)

Lemma std_max_Rmax (a b : R) : std_max a b = Rmax a b.
Proof.
  unfold std_max, Rmax.
  destruct (Rlt_dec a b), (Rle_dec a b); lra.
Qed.

Lemma std_min_Rmin (a b : R) : std_min a b = Rmin a b.
Proof.
  unfold std_min, Rmin.
  destruct (Rlt_dec b a), (Rle_dec a b); lra.
Qed.

Lemma two_PI_pos : 0 < 2 * PI.
Proof. pose proof PI_RGT_0; lra. Qed.

Lemma one_lt_PI : 1 < PI.
Proof. pose proof PI2_1; lra. Qed.

(** ** NormalizeRadians *)

Lemma NormalizeRadians_formula (a : R) :
  NormalizeRadians a = a - 2 * PI * IZR (Zfloor ((a + PI) / (2 * PI))).
Proof.
  unfold NormalizeRadians, std_floor.
  replace (a - - PI) with (a + PI) by ring.
  reflexivity.
Qed.

Lemma NormalizeRadians_range (a : R) :
  - PI <= NormalizeRadians a < PI.
Proof.
  rewrite NormalizeRadians_formula.
  pose proof two_PI_pos as Hpos.
  destruct (Zfloor_bound ((a + PI) / (2 * PI))) as [Hlo Hhi].
  set (k := IZR (Zfloor ((a + PI) / (2 * PI)))) in *.
  assert (Hq : (a + PI) / (2 * PI) * (2 * PI) = a + PI) by (field; lra).
  split.
  - apply (Rmult_le_compat_r (2 * PI)) in Hlo; lra.
  - apply (Rmult_lt_compat_r (2 * PI)) in Hhi; lra.
Qed.

(** An angle that is already in [[-PI, PI)] is left as it is. *)
Lemma NormalizeRadians_id (a : R) :
  - PI <= a < PI -> NormalizeRadians a = a.
Proof.
  intros [Hlo Hhi].
  rewrite NormalizeRadians_formula.
  pose proof two_PI_pos as Hpos.
  rewrite (Zfloor_eq 0 ((a + PI) / (2 * PI))); [simpl; ring|].
  simpl; split.
  - apply Rmult_le_reg_r with (2 * PI); [lra|].
    unfold Rdiv; rewrite Rmult_assoc, Rinv_l; lra.
  - apply Rmult_lt_reg_r with (2 * PI); [lra|].
    unfold Rdiv; rewrite Rmult_assoc, Rinv_l; lra.
Qed.

Lemma NormalizeRadians_PI : NormalizeRadians PI = - PI.
Proof.
  rewrite NormalizeRadians_formula.
  pose proof two_PI_pos as Hpos.
  replace ((PI + PI) / (2 * PI)) with (IZR 1) by (field; lra).
  rewrite ZfloorZ; ring.
Qed.

(** ** What [Open] accepts *)

Lemma Open_options (cc : CalculatorContext) : snd (Open cc) = cc_Options cc.
Proof. reflexivity. Qed.

Lemma Open_ok_iff (cc : CalculatorContext) :
  fst (Open cc) = OkStatus <->
  Options.has_rotation (cc_Options cc)
    && Options.has_rotation_degrees (cc_Options cc) = false
  /\ Options.has_square_long (cc_Options cc)
       && Options.has_square_short (cc_Options cc) = false.
Proof.
  unfold Open, RET_CHECK; simpl.
  destruct (Options.has_rotation (cc_Options cc)
            && Options.has_rotation_degrees (cc_Options cc));
    destruct (Options.has_square_long (cc_Options cc)
              && Options.has_square_short (cc_Options cc));
    simpl; intuition congruence.
Qed.

(** After a successful [Open], a short-side policy that is switched on
    leaves the long-side getter at its default. *)
Lemma Open_ok_square_short (cc : CalculatorContext) :
  fst (Open cc) = OkStatus ->
  Options.square_short (snd (Open cc)) = true ->
  Options.square_long (snd (Open cc)) = false.
Proof.
  intros Hok Hshort.
  apply Open_ok_iff in Hok as [_ Hsq].
  rewrite Open_options in *.
  unfold Options.square_short, Options.square_long,
    Options.has_square_long, Options.has_square_short in *.
  destruct (Options.square_long_field (cc_Options cc)),
    (Options.square_short_field (cc_Options cc));
    simpl in *; congruence.
Qed.

(** ** The angle that steers the shift *)

(** The local variable [rotation] of both transforms, once the test on the
    rotation options is behind, is the effective rotation of the
    specification. *)
Lemma local_rotation_effective (o : Options.t) (r : R) :
  (if Options.has_rotation o || Options.has_rotation_degrees o
   then ComputeNewRotation o r else r) = effective_rotation o r.
Proof.
  unfold effective_rotation, rotation_delta, ComputeNewRotation,
    Options.has_rotation, Options.has_rotation_degrees,
    Options.rotation, Options.rotation_degrees.
  destruct (Options.rotation_field o), (Options.rotation_degrees_field o);
    reflexivity.
Qed.

(** ** The transforms, field by field *)

Lemma TransformRect_rotation (o : Options.t) (rect : Rect.t) :
  Rect.rotation (TransformRect o rect) = Rect.rotation rect.
Proof. unfold_transform; split_cases; reflexivity. Qed.

Lemma TransformNormalizedRect_rotation (o : Options.t)
    (rect : NormalizedRect.t) (image_width image_height : Z) :
  NormalizedRect.rotation
    (TransformNormalizedRect o rect image_width image_height)
  = NormalizedRect.rotation rect.
Proof. unfold_transform; split_cases; reflexivity. Qed.

Lemma TransformRect_center (o : Options.t) (rect : Rect.t) :
  let s := rotated_shift (effective_rotation o (Rect.rotation rect))
             (Rect.width rect * Options.shift_x o)
             (Rect.height rect * Options.shift_y o) in
  Rect.x_center (TransformRect o rect) = Rect.x_center rect + fst s
  /\ Rect.y_center (TransformRect o rect) = Rect.y_center rect + snd s.
Proof.
  unfold rotated_shift; unfold_transform;
    rewrite ?local_rotation_effective; split_cases; simpl; auto.
Qed.

Lemma TransformNormalizedRect_center (o : Options.t)
    (rect : NormalizedRect.t) (image_width image_height : Z) :
  let s := rotated_shift_normalized
             (effective_rotation o (NormalizedRect.rotation rect))
             (NormalizedRect.width rect) (NormalizedRect.height rect)
             (Options.shift_x o) (Options.shift_y o)
             (IZR image_width) (IZR image_height) in
  let out := TransformNormalizedRect o rect image_width image_height in
  NormalizedRect.x_center out = NormalizedRect.x_center rect + fst s
  /\ NormalizedRect.y_center out = NormalizedRect.y_center rect + snd s.
Proof.
  unfold rotated_shift_normalized; unfold_transform;
    rewrite ?local_rotation_effective; split_cases; simpl;
    split; f_equal; try ring; unfold Rdiv; f_equal; ring.
Qed.

Lemma TransformRect_size (o : Options.t) (rect : Rect.t) :
  let w := Rect.width rect in
  let h := Rect.height rect in
  let side :=
    if Options.square_long o then (Rmax w h, Rmax w h)
    else if Options.square_short o then (Rmin w h, Rmin w h)
    else (w, h) in
  Rect.width (TransformRect o rect) = fst side * Options.scale_x o
  /\ Rect.height (TransformRect o rect) = snd side * Options.scale_y o.
Proof.
  unfold_transform.
  rewrite ?local_rotation_effective, <- std_max_Rmax, <- std_min_Rmin.
  split_cases; simpl; auto.
Qed.

Lemma TransformNormalizedRect_size (o : Options.t)
    (rect : NormalizedRect.t) (image_width image_height : Z) :
  let wpx := NormalizedRect.width rect * IZR image_width in
  let hpx := NormalizedRect.height rect * IZR image_height in
  let side :=
    if Options.square_long o then
      (Rmax wpx hpx / IZR image_width, Rmax wpx hpx / IZR image_height)
    else if Options.square_short o then
      (Rmin wpx hpx / IZR image_width, Rmin wpx hpx / IZR image_height)
    else (NormalizedRect.width rect, NormalizedRect.height rect) in
  let out := TransformNormalizedRect o rect image_width image_height in
  NormalizedRect.width out = fst side * Options.scale_x o
  /\ NormalizedRect.height out = snd side * Options.scale_y o.
Proof.
  unfold_transform.
  rewrite ?local_rotation_effective, <- std_max_Rmax, <- std_min_Rmin.
  split_cases; simpl; auto.
Qed.

(** ** The wrap function *)

(** C2, as the specification words it, fails at the angle [PI]: the wrap of
    [PI] is [- PI], which is not above [- PI]. *)
Lemma NormalizeRadians_PI_outside :
  ~ (- PI < NormalizeRadians PI <= PI).
Proof.
  rewrite NormalizeRadians_PI.
  intros [Hlt _]; lra.
Qed.

(** C2 (amended): for every real angle [a], [NormalizeRadians a] is
    [a - 2 * PI * floor ((a + PI) / (2 * PI))], and it lies in the interval
    closed below and open above, from [- PI] included to [PI] excluded. *)
Theorem NormalizeRadians_wraps (a : R) :
  NormalizeRadians a = a - 2 * PI * IZR (Zfloor ((a + PI) / (2 * PI)))
  /\ - PI <= NormalizeRadians a < PI.
Proof.
  split; [apply NormalizeRadians_formula | apply NormalizeRadians_range].
Qed.

(** ** The rotation field *)

(** C8: neither transform writes the rotation field; whatever the
    configuration, the rectangle returned carries the rotation it came
    with. *)
Theorem rotation_field_untouched (o : Options.t) (rect : Rect.t)
    (nrect : NormalizedRect.t) (image_width image_height : Z) :
  Rect.rotation (TransformRect o rect) = Rect.rotation rect
  /\ NormalizedRect.rotation
       (TransformNormalizedRect o nrect image_width image_height)
     = NormalizedRect.rotation nrect.
Proof.
  split.
  - apply TransformRect_rotation.
  - apply TransformNormalizedRect_rotation.
Qed.

(** C1, as the specification words it, fails for a rectangle at rotation 0
    and a delta of one radian: the wrap of [0 + 1] is [1], the rotation
    field returned is still [0]. *)
Lemma rotation_delta_not_stored :
  rotation_delta one_radian_options = Some 1
  /\ Rect.rotation (TransformRect one_radian_options rect_10_20)
     <> NormalizeRadians (Rect.rotation rect_10_20 + 1).
Proof.
  split; [reflexivity|].
  rewrite TransformRect_rotation; simpl.
  rewrite NormalizeRadians_id.
  - lra.
  - pose proof one_lt_PI; lra.
Qed.

(** C1 (amended): for every input rectangle with rotation [r] and every
    configuration, the rotation field of the rectangle returned by either
    transform equals [r].  When the configuration sets a rotation delta [d]
    (in radians, or in degrees converted by [PI * degrees / 180]), the
    wrapped angle [NormalizeRadians (r + d)] is the angle at which the
    centre is shifted, and that is its only use; without a delta the centre
    is shifted at angle [r]. *)
Theorem rotation_delta_steers_shift_only (o : Options.t) (rect : Rect.t)
    (nrect : NormalizedRect.t) (image_width image_height : Z) :
  let angle r :=
    match rotation_delta o with
    | Some d => NormalizeRadians (r + d)
    | None => r
    end in
  let out := TransformRect o rect in
  let s := rotated_shift (angle (Rect.rotation rect))
             (Rect.width rect * Options.shift_x o)
             (Rect.height rect * Options.shift_y o) in
  let nout := TransformNormalizedRect o nrect image_width image_height in
  let ns := rotated_shift_normalized
              (angle (NormalizedRect.rotation nrect))
              (NormalizedRect.width nrect) (NormalizedRect.height nrect)
              (Options.shift_x o) (Options.shift_y o)
              (IZR image_width) (IZR image_height) in
  (Rect.rotation out = Rect.rotation rect
   /\ Rect.x_center out = Rect.x_center rect + fst s
   /\ Rect.y_center out = Rect.y_center rect + snd s)
  /\ (NormalizedRect.rotation nout = NormalizedRect.rotation nrect
      /\ NormalizedRect.x_center nout = NormalizedRect.x_center nrect + fst ns
      /\ NormalizedRect.y_center nout
         = NormalizedRect.y_center nrect + snd ns).
Proof.
  intros angle out s nout ns.
  split; split.
  - apply TransformRect_rotation.
  - apply (TransformRect_center o rect).
  - apply TransformNormalizedRect_rotation.
  - apply (TransformNormalizedRect_center o nrect image_width image_height).
Qed.

(** ** Setup and per-record processing *)

(** C7: [Open] fails exactly when the configuration sets both the rotation
    in radians and the rotation in degrees, or sets both square policies;
    every other configuration passes, and [Process] returns [OkStatus] for
    every record under every configuration. *)
Theorem Open_fails_iff_conflict (cc : CalculatorContext) :
  (fst (Open cc) <> OkStatus <->
   (Options.has_rotation (cc_Options cc) = true
    /\ Options.has_rotation_degrees (cc_Options cc) = true)
   \/ (Options.has_square_long (cc_Options cc) = true
       /\ Options.has_square_short (cc_Options cc) = true))
  /\ (forall (o : Options.t) (record : CalculatorContext),
        fst (Process o record) = OkStatus).
Proof.
  split; [|reflexivity].
  rewrite Open_ok_iff.
  destruct (Options.has_rotation (cc_Options cc)),
    (Options.has_rotation_degrees (cc_Options cc)),
    (Options.has_square_long (cc_Options cc)),
    (Options.has_square_short (cc_Options cc));
    simpl; intuition congruence.
Qed.

(** ** The examples of the specification *)

(** C4: the rectangle centred at (0, 0), 10 wide and 20 high, at rotation 0,
    under [shift_x = 1], [shift_y = 0], [scale_x = scale_y = 2], comes back
    centred at (10, 0), 20 wide and 40 high, at rotation 0. *)
Theorem TransformRect_shift_scale_example :
  TransformRect shift_scale_options rect_10_20 = Rect.Build 10 0 20 40 0.
Proof.
  unfold TransformRect, shift_scale_options, rect_10_20; simpl.
  destruct (Req_dec_T 0 0) as [_|Hne]; [|contradiction].
  unfold Rect.set_height, Rect.set_width, Rect.set_y_center,
    Rect.set_x_center; simpl.
  f_equal; lra.
Qed.

(** ** Squaring *)

Lemma norm_rect_example_squared :
  let out :=
    TransformNormalizedRect square_long_options norm_rect_example 100 50 in
  NormalizedRect.x_center out = 0.5 /\ NormalizedRect.y_center out = 0.5
  /\ NormalizedRect.width out = 0.2 /\ NormalizedRect.height out = 0.4
  /\ NormalizedRect.rotation out = 0.
Proof.
  unfold TransformNormalizedRect, square_long_options, norm_rect_example;
    simpl.
  destruct (Req_dec_T 0 0) as [_|Hne]; [|contradiction].
  rewrite std_max_Rmax, Rmax_left by lra.
  simpl; repeat split; lra.
Qed.

(** C3: under a configuration that passed [Open], for every normalized
    rectangle of width [w] and height [h] and every image size, the long-side
    policy gives the width [max (w * imgW) (h * imgH) / imgW] and the height
    [max (w * imgW) (h * imgH) / imgH] before the scale is applied, and the
    short-side policy gives the same with [min]; the rectangle of width 0.2
    and height 0.1 in a 100 x 50 image comes back 0.2 wide and 0.4 high
    under the long-side policy and scales 1. *)
Theorem TransformNormalizedRect_squares_in_pixels :
  (forall (cc : CalculatorContext) (rect : NormalizedRect.t)
          (image_width image_height : Z),
      fst (Open cc) = OkStatus ->
      let o := snd (Open cc) in
      let out := TransformNormalizedRect o rect image_width image_height in
      let wpx := NormalizedRect.width rect * IZR image_width in
      let hpx := NormalizedRect.height rect * IZR image_height in
      (Options.square_long o = true ->
       NormalizedRect.width out
       = Rmax wpx hpx / IZR image_width * Options.scale_x o
       /\ NormalizedRect.height out
          = Rmax wpx hpx / IZR image_height * Options.scale_y o)
      /\ (Options.square_short o = true ->
          NormalizedRect.width out
          = Rmin wpx hpx / IZR image_width * Options.scale_x o
          /\ NormalizedRect.height out
             = Rmin wpx hpx / IZR image_height * Options.scale_y o))
  /\ (let out :=
        TransformNormalizedRect square_long_options norm_rect_example 100 50
      in NormalizedRect.width out = 0.2 /\ NormalizedRect.height out = 0.4).
Proof.
  split.
  - intros cc rect image_width image_height Hok o out wpx hpx.
    pose proof (TransformNormalizedRect_size o rect image_width image_height)
      as Hsize.
    split; intros Hpolicy.
    + cbv zeta in Hsize; rewrite Hpolicy in Hsize; exact Hsize.
    + pose proof (Open_ok_square_short cc Hok Hpolicy) as Hlong.
      fold o in Hlong.
      cbv zeta in Hsize; rewrite Hlong, Hpolicy in Hsize; exact Hsize.
  - pose proof norm_rect_example_squared as H; cbv zeta in *; tauto.
Qed.

Lemma TransformNormalizedRect_squares_in_pixels_witness :
  fst (Open (context_of square_long_options)) = OkStatus
  /\ NormalizedRect.width
       (TransformNormalizedRect square_long_options norm_rect_example 100 50)
     = Rmax (0.2 * 100) (0.1 * 50) / 100 * 1.
Proof.
  split; [reflexivity|].
  destruct (proj1 TransformNormalizedRect_squares_in_pixels
              (context_of square_long_options) norm_rect_example
              100%Z 50%Z eq_refl) as [Hlong _].
  destruct (Hlong eq_refl) as [Hw _].
  exact Hw.
Defined.

(** C5: under a configuration that passed [Open], for every rectangle in
    pixels, the long-side policy makes the width and the height before the
    scale both [max (width, height)], the short-side policy makes them both
    [min (width, height)], and with neither policy they stay as they are;
    the width and height returned are those values times [scale_x] and
    [scale_y]. *)
Theorem TransformRect_squares_then_scales (cc : CalculatorContext)
    (rect : Rect.t) (Hok : fst (Open cc) = OkStatus) :
  let o := snd (Open cc) in
  let out := TransformRect o rect in
  let w := Rect.width rect in
  let h := Rect.height rect in
  (Options.square_long o = true ->
   Rect.width out = Rmax w h * Options.scale_x o
   /\ Rect.height out = Rmax w h * Options.scale_y o)
  /\ (Options.square_short o = true ->
      Rect.width out = Rmin w h * Options.scale_x o
      /\ Rect.height out = Rmin w h * Options.scale_y o)
  /\ (Options.square_long o = false -> Options.square_short o = false ->
      Rect.width out = w * Options.scale_x o
      /\ Rect.height out = h * Options.scale_y o).
Proof.
  intros o out w h.
  pose proof (TransformRect_size o rect) as Hsize; cbv zeta in Hsize.
  split; [|split].
  - intros Hlong.
    rewrite Hlong in Hsize; exact Hsize.
  - intros Hshort.
    pose proof (Open_ok_square_short cc Hok Hshort) as Hlong.
    fold o in Hlong.
    rewrite Hlong, Hshort in Hsize; exact Hsize.
  - intros Hlong Hshort.
    rewrite Hlong, Hshort in Hsize; exact Hsize.
Qed.

Lemma TransformRect_squares_then_scales_witness :
  fst (Open (context_of square_short_options)) = OkStatus
  /\ Rect.width (TransformRect square_short_options rect_10_20)
     = Rmin 10 20 * 1
  /\ Rect.height (TransformRect square_short_options rect_10_20)
     = Rmin 10 20 * 1.
Proof.
  split; [reflexivity|].
  destruct (TransformRect_squares_then_scales
              (context_of square_short_options) rect_10_20 eq_refl)
    as (_ & Hshort & _).
  exact (Hshort eq_refl).
Defined.

(** ** The shift of the centre *)

(** C6: for every normalized rectangle and image size, with [r] the
    effective rotation (the input rotation, wrapped after the delta was added
    when the configuration has one), [dx_px = width * imgW * shift_x] and
    [dy_px = height * imgH * shift_y]: when [r] is not 0 the centre moves by
    [(dx_px * cos r - dy_px * sin r) / imgW] and
    [(dx_px * sin r + dy_px * cos r) / imgH]; when [r] is 0 it moves by
    [shift_x * width] and [shift_y * height]. *)
Theorem TransformNormalizedRect_shift (o : Options.t)
    (rect : NormalizedRect.t) (image_width image_height : Z) :
  let r := effective_rotation o (NormalizedRect.rotation rect) in
  let imgW := IZR image_width in
  let imgH := IZR image_height in
  let dx_px := NormalizedRect.width rect * imgW * Options.shift_x o in
  let dy_px := NormalizedRect.height rect * imgH * Options.shift_y o in
  let out := TransformNormalizedRect o rect image_width image_height in
  (r <> 0 ->
   NormalizedRect.x_center out
   = NormalizedRect.x_center rect + (dx_px * cos r - dy_px * sin r) / imgW
   /\ NormalizedRect.y_center out
      = NormalizedRect.y_center rect + (dx_px * sin r + dy_px * cos r) / imgH)
  /\ (r = 0 ->
      NormalizedRect.x_center out
      = NormalizedRect.x_center rect
        + Options.shift_x o * NormalizedRect.width rect
      /\ NormalizedRect.y_center out
         = NormalizedRect.y_center rect
           + Options.shift_y o * NormalizedRect.height rect).
Proof.
  intros r imgW imgH dx_px dy_px out.
  pose proof (TransformNormalizedRect_center o rect image_width image_height)
    as Hc.
  cbv zeta in Hc; unfold rotated_shift_normalized in Hc; fold r in Hc.
  split; intros Hr; destruct (Req_dec_T r 0) as [Hz|Hnz];
    try contradiction; exact Hc.
Qed.

Lemma TransformNormalizedRect_shift_witness :
  effective_rotation shift_options (NormalizedRect.rotation norm_rect_turned)
  <> 0
  /\ NormalizedRect.x_center
       (TransformNormalizedRect shift_options norm_rect_turned 100 50)
     = 0.5 + (0.2 * 100 * 0.5 * cos 1 - 0.1 * 50 * 0.25 * sin 1) / 100.
Proof.
  assert (Hr : effective_rotation shift_options
                 (NormalizedRect.rotation norm_rect_turned) <> 0)
    by (unfold effective_rotation; simpl; lra).
  split; [exact Hr|].
  destruct (TransformNormalizedRect_shift shift_options norm_rect_turned
              100%Z 50%Z) as [Hturned _].
  destruct (Hturned Hr) as [Hx _].
  exact Hx.
Defined.

(** C9: the zero-rotation branch is the rotated shift taken at angle 0.  For
    every configuration, every rectangle in pixels, and every normalized
    rectangle in an image of positive width and height, the transform with
    the branch taken out and the cos / sin formula used throughout returns
    the rectangle that the transform of the calculator returns. *)
Theorem zero_rotation_branch_is_rotated_shift (o : Options.t)
    (rect : Rect.t) (nrect : NormalizedRect.t) (image_width image_height : Z)
    (Hwidth : (0 < image_width)%Z) (Hheight : (0 < image_height)%Z) :
  TransformRect_always_rotated o rect = TransformRect o rect
  /\ TransformNormalizedRect_always_rotated o nrect image_width image_height
     = TransformNormalizedRect o nrect image_width image_height.
Proof.
  apply IZR_lt in Hwidth, Hheight.
  split.
  - unfold_transform; rewrite ?local_rotation_effective.
    destruct (Req_dec_T (effective_rotation o (Rect.rotation rect)) 0)
      as [Hz|Hnz]; [|reflexivity].
    rewrite Hz, cos_0, sin_0.
    split_cases;
      unfold Rect.set_height, Rect.set_width, Rect.set_y_center,
        Rect.set_x_center; simpl; f_equal; ring.
  - unfold_transform; rewrite ?local_rotation_effective.
    destruct (Req_dec_T
                (effective_rotation o (NormalizedRect.rotation nrect)) 0)
      as [Hz|Hnz]; [|reflexivity].
    rewrite Hz, cos_0, sin_0.
    split_cases;
      unfold NormalizedRect.set_height, NormalizedRect.set_width,
        NormalizedRect.set_y_center, NormalizedRect.set_x_center; simpl;
      f_equal; field; lra.
Qed.

Lemma zero_rotation_branch_is_rotated_shift_witness :
  (0 < 100)%Z /\ (0 < 50)%Z
  /\ TransformRect_always_rotated shift_scale_options rect_10_20
     = TransformRect shift_scale_options rect_10_20
  /\ TransformNormalizedRect_always_rotated shift_scale_options
       norm_rect_example 100 50
     = TransformNormalizedRect shift_scale_options norm_rect_example 100 50.
Proof.
  split; [reflexivity|]. split; [reflexivity|].
  apply (zero_rotation_branch_is_rotated_shift shift_scale_options
           rect_10_20 norm_rect_example 100%Z 50%Z);
    reflexivity.
Defined.

(** C10: when [shift_x] and [shift_y] are both 0, the centre returned is the
    centre that came in, for every rotation of the input, every rotation
    option and every image size, in both transforms. *)
Theorem zero_shift_keeps_center (o : Options.t) (rect : Rect.t)
    (nrect : NormalizedRect.t) (image_width image_height : Z)
    (Hx : Options.shift_x o = 0) (Hy : Options.shift_y o = 0) :
  (Rect.x_center (TransformRect o rect) = Rect.x_center rect
   /\ Rect.y_center (TransformRect o rect) = Rect.y_center rect)
  /\ (let out := TransformNormalizedRect o nrect image_width image_height in
      NormalizedRect.x_center out = NormalizedRect.x_center nrect
      /\ NormalizedRect.y_center out = NormalizedRect.y_center nrect).
Proof.
  split.
  - destruct (TransformRect_center o rect) as [Hcx Hcy].
    rewrite Hcx, Hcy, Hx, Hy; unfold rotated_shift.
    destruct (Req_dec_T _ 0); simpl; split; ring.
  - cbv zeta.
    destruct (TransformNormalizedRect_center o nrect image_width
                image_height) as [Hcx Hcy].
    rewrite Hcx, Hcy, Hx, Hy; unfold rotated_shift_normalized.
    destruct (Req_dec_T _ 0); simpl; unfold Rdiv; split; ring.
Qed.

Lemma zero_shift_keeps_center_witness :
  Options.shift_x one_radian_options = 0
  /\ Options.shift_y one_radian_options = 0
  /\ Rect.x_center (TransformRect one_radian_options rect_10_20) = 0
  /\ NormalizedRect.x_center
       (TransformNormalizedRect one_radian_options norm_rect_turned 100 50)
     = 0.5.
Proof.
  split; [reflexivity|]. split; [reflexivity|].
  destruct (zero_shift_keeps_center one_radian_options rect_10_20
              norm_rect_turned 100%Z 50%Z eq_refl eq_refl)
    as [[Hx _] [Hnx _]].
  split; [exact Hx | exact Hnx].
Defined.

(** ** More on the wrap function *)

Lemma cos_sin_period_Z (x : R) (k : Z) :
  cos (x + 2 * PI * IZR k) = cos x /\ sin (x + 2 * PI * IZR k) = sin x.
Proof.
  destruct (Z_le_gt_dec 0 k) as [Hk|Hk].
  - rewrite <- (Z2Nat.id k Hk), <- INR_IZR_INZ.
    replace (x + 2 * PI * INR (Z.to_nat k))
      with (x + 2 * INR (Z.to_nat k) * PI) by ring.
    split; [apply cos_period | apply sin_period].
  - assert (Hn : (0 <= - k)%Z) by lia.
    set (y := x + 2 * PI * IZR k).
    replace x with (y + 2 * INR (Z.to_nat (- k)) * PI).
    + split; symmetry; [apply cos_period | apply sin_period].
    + rewrite INR_IZR_INZ, (Z2Nat.id _ Hn), opp_IZR.
      unfold y; ring.
Qed.

Lemma wrap_add_turns (a : R) (k : Z) :
  NormalizeRadians (a + 2 * PI * IZR k) = NormalizeRadians a.
Proof.
  rewrite !NormalizeRadians_formula.
  pose proof two_PI_pos as Hpos.
  replace ((a + 2 * PI * IZR k + PI) / (2 * PI))
    with ((a + PI) / (2 * PI) + IZR k) by (field; lra).
  rewrite Zfloor_addz, plus_IZR; ring.
Qed.

Lemma wrap_cos_sin (a : R) :
  cos (NormalizeRadians a) = cos a /\ sin (NormalizeRadians a) = sin a.
Proof.
  rewrite NormalizeRadians_formula.
  set (k := Zfloor ((a + PI) / (2 * PI))).
  replace (a - 2 * PI * IZR k) with (a + 2 * PI * IZR (- k))
    by (rewrite opp_IZR; ring).
  apply cos_sin_period_Z.
Qed.

(** The wrap function has period [2 * PI]: adding any whole number of full
    turns to an angle does not change its wrap. *)
Theorem NormalizeRadians_periodic (a : R) (k : Z) :
  NormalizeRadians (a + 2 * PI * IZR k) = NormalizeRadians a.
Proof.
  rewrite !NormalizeRadians_formula.
  assert (Hturn : (a + 2 * PI * IZR k + PI) / (2 * PI)
                  = (a + PI) / (2 * PI) + IZR k)
    by (field; apply PI_neq0).
  rewrite Hturn, Zfloor_addz, plus_IZR.
  ring.
Qed.

(** The wrap function is idempotent: wrapping a wrapped angle changes
    nothing. *)
Theorem NormalizeRadians_idempotent (a : R) :
  NormalizeRadians (NormalizeRadians a) = NormalizeRadians a.
Proof. apply NormalizeRadians_id, NormalizeRadians_range. Qed.

(** The angles the wrap function leaves as they are, are exactly those from
    [- PI] included to [PI] excluded. *)
Theorem NormalizeRadians_fixes_iff (a : R) :
  NormalizeRadians a = a <-> - PI <= a < PI.
Proof.
  split.
  - intros Hfix; rewrite <- Hfix; apply NormalizeRadians_range.
  - apply NormalizeRadians_id.
Qed.

(** The wrap function differs from its argument by a whole number of full
    turns, so it keeps the cosine and the sine of the angle. *)
Theorem NormalizeRadians_keeps_direction (a : R) :
  cos (NormalizeRadians a) = cos a /\ sin (NormalizeRadians a) = sin a.
Proof.
  pose proof (cos_sin_period_Z (NormalizeRadians a)
                (Zfloor ((a + PI) / (2 * PI)))) as Hturns.
  rewrite NormalizeRadians_formula in Hturns at 1 3.
  replace (a - 2 * PI * IZR (Zfloor ((a + PI) / (2 * PI)))
           + 2 * PI * IZR (Zfloor ((a + PI) / (2 * PI))))
    with a in Hturns by ring.
  destruct Hturns as [Hcos Hsin]; split; congruence.
Qed.

(** The wrap of an angle is exactly 0, which is when the transforms take
    their unrotated branch, if and only if the angle is a whole number of
    full turns. *)
Theorem NormalizeRadians_zero_iff (a : R) :
  NormalizeRadians a = 0 <-> exists k : Z, a = 2 * PI * IZR k.
Proof.
  split.
  - rewrite NormalizeRadians_formula; intros Hz.
    exists (Zfloor ((a + PI) / (2 * PI))); lra.
  - intros [k ->].
    replace (2 * PI * IZR k) with (0 + 2 * PI * IZR k) by ring.
    rewrite wrap_add_turns.
    apply NormalizeRadians_id.
    pose proof PI_RGT_0; lra.
Qed.

(** ** More on the new rotation *)

Lemma ComputeNewRotation_delta (o : Options.t) (r : R) :
  ComputeNewRotation o r = NormalizeRadians (r + delta_or_zero o).
Proof.
  unfold ComputeNewRotation, delta_or_zero, rotation_delta,
    Options.has_rotation, Options.has_rotation_degrees,
    Options.rotation, Options.rotation_degrees.
  destruct (Options.rotation_field o), (Options.rotation_degrees_field o);
    simpl; try reflexivity.
  f_equal; ring.
Qed.

(** [ComputeNewRotation] always returns an angle from [- PI] included to
    [PI] excluded, and applying it under one configuration and then under
    another gives the wrap of the rotation plus both deltas: nothing is lost
    by wrapping in between. *)
Theorem ComputeNewRotation_composes (o1 o2 : Options.t) (r : R) :
  - PI <= ComputeNewRotation o1 r < PI
  /\ ComputeNewRotation o2 (ComputeNewRotation o1 r)
     = NormalizeRadians (r + delta_or_zero o1 + delta_or_zero o2).
Proof.
  rewrite !ComputeNewRotation_delta.
  split; [apply NormalizeRadians_range|].
  rewrite (NormalizeRadians_formula (r + delta_or_zero o1)).
  set (k := Zfloor ((r + delta_or_zero o1 + PI) / (2 * PI))).
  replace (r + delta_or_zero o1 - 2 * PI * IZR k + delta_or_zero o2)
    with (r + delta_or_zero o1 + delta_or_zero o2 + 2 * PI * IZR (- k))
    by (rewrite opp_IZR; ring).
  apply wrap_add_turns.
Qed.

(** ** The shift, seen from the unwrapped angle *)

Lemma effective_rotation_cos_sin (o : Options.t) (r : R) :
  cos (effective_rotation o r) = cos (r + delta_or_zero o)
  /\ sin (effective_rotation o r) = sin (r + delta_or_zero o).
Proof.
  unfold effective_rotation, delta_or_zero.
  destruct (rotation_delta o) as [d|].
  - apply wrap_cos_sin.
  - replace (r + 0) with r by ring; auto.
Qed.

(** With or without its zero-angle case, the shift in pixels is the local
    shift turned by the angle. *)
Lemma rotated_shift_turns (a sx sy : R) :
  rotated_shift a sx sy
  = (sx * cos a - sy * sin a, sx * sin a + sy * cos a).
Proof.
  unfold rotated_shift.
  destruct (Req_dec_T a 0) as [->|_]; [|reflexivity].
  rewrite cos_0, sin_0; f_equal; ring.
Qed.

Lemma rotated_shift_normalized_turns (a w h sx sy imgW imgH : R) :
  imgW <> 0 -> imgH <> 0 ->
  rotated_shift_normalized a w h sx sy imgW imgH
  = ((w * imgW * sx * cos a - h * imgH * sy * sin a) / imgW,
     (w * imgW * sx * sin a + h * imgH * sy * cos a) / imgH).
Proof.
  intros HW HH; unfold rotated_shift_normalized.
  destruct (Req_dec_T a 0) as [->|_]; [|reflexivity].
  rewrite cos_0, sin_0; f_equal; field; assumption.
Qed.

(** The centre returned by [TransformRect] is the centre that came in plus
    the local shift [(width * shift_x, height * shift_y)] turned by the
    unwrapped angle: the input rotation plus the configured delta.  Neither
    the wrapping nor the zero-rotation branch shows in the result. *)
Theorem TransformRect_center_unwrapped (o : Options.t) (rect : Rect.t) :
  let a := Rect.rotation rect + delta_or_zero o in
  let sx := Rect.width rect * Options.shift_x o in
  let sy := Rect.height rect * Options.shift_y o in
  Rect.x_center (TransformRect o rect)
  = Rect.x_center rect + (sx * cos a - sy * sin a)
  /\ Rect.y_center (TransformRect o rect)
     = Rect.y_center rect + (sx * sin a + sy * cos a).
Proof.
  intros a sx sy.
  destruct (TransformRect_center o rect) as [Hx Hy].
  destruct (effective_rotation_cos_sin o (Rect.rotation rect)) as [Hc Hs].
  rewrite Hx, Hy, rotated_shift_turns, Hc, Hs; simpl; auto.
Qed.

(** The shift of [TransformRect] keeps lengths: the centre moves by exactly
    the length of the local shift, whatever the angle. *)
Theorem TransformRect_shift_length (o : Options.t) (rect : Rect.t) :
  let out := TransformRect o rect in
  (Rect.x_center out - Rect.x_center rect) ^ 2
  + (Rect.y_center out - Rect.y_center rect) ^ 2
  = (Rect.width rect * Options.shift_x o) ^ 2
    + (Rect.height rect * Options.shift_y o) ^ 2.
Proof.
  cbv zeta.
  destruct (TransformRect_center o rect) as [Hx Hy].
  rewrite Hx, Hy, rotated_shift_turns; simpl fst; simpl snd.
  set (a := effective_rotation o (Rect.rotation rect)).
  set (sx := Rect.width rect * Options.shift_x o).
  set (sy := Rect.height rect * Options.shift_y o).
  pose proof (sin2_cos2 a) as Hone; unfold Rsqr in Hone.
  replace ((Rect.x_center rect + (sx * cos a - sy * sin a)
            - Rect.x_center rect) ^ 2
           + (Rect.y_center rect + (sx * sin a + sy * cos a)
              - Rect.y_center rect) ^ 2)
    with ((sx ^ 2 + sy ^ 2) * (sin a * sin a + cos a * cos a)) by ring.
  rewrite Hone; ring.
Qed.

(** ** The two transforms agree through the unit conversion *)

(** In an image of positive width and height, transforming a normalized
    rectangle and reading the result in pixels is the same as reading the
    rectangle in pixels and transforming it with [TransformRect]: shift,
    squaring and scale of the normalized transform all act on pixels. *)
Theorem TransformNormalizedRect_is_TransformRect_in_pixels
    (o : Options.t) (rect : NormalizedRect.t) (image_width image_height : Z)
    (Hwidth : (0 < image_width)%Z) (Hheight : (0 < image_height)%Z) :
  to_pixels (TransformNormalizedRect o rect image_width image_height)
    image_width image_height
  = TransformRect o (to_pixels rect image_width image_height).
Proof.
  apply IZR_lt in Hwidth, Hheight.
  destruct (TransformNormalizedRect_center o rect image_width image_height)
    as [Hx Hy].
  destruct (TransformNormalizedRect_size o rect image_width image_height)
    as [Hw Hh].
  destruct (TransformRect_center o
              (to_pixels rect image_width image_height)) as [Hpx Hpy].
  destruct (TransformRect_size o (to_pixels rect image_width image_height))
    as [Hpw Hph].
  pose proof (TransformRect_rotation o
                (to_pixels rect image_width image_height)) as Hpr.
  pose proof (TransformNormalizedRect_rotation o rect image_width
                image_height) as Hr.
  destruct (TransformRect o (to_pixels rect image_width image_height))
    as [px py pw ph pr].
  unfold to_pixels in *; simpl in *.
  rewrite Hx, Hy, Hw, Hh, Hr, Hpx, Hpy, Hpw, Hph, Hpr.
  unfold rotated_shift, rotated_shift_normalized.
  destruct (Req_dec_T _ 0), (Options.square_long o),
    (Options.square_short o); simpl; f_equal; field; lra.
Qed.

Lemma TransformNormalizedRect_is_TransformRect_in_pixels_witness :
  (0 < 100)%Z /\ (0 < 50)%Z
  /\ to_pixels
       (TransformNormalizedRect quarter_turn_options norm_rect_turned 100 50)
       100 50
     = TransformRect quarter_turn_options
         (to_pixels norm_rect_turned 100 50).
Proof.
  split; [reflexivity|]. split; [reflexivity|].
  apply (TransformNormalizedRect_is_TransformRect_in_pixels
           quarter_turn_options norm_rect_turned 100%Z 50%Z);
    reflexivity.
Defined.

(** ** Configurations that do nothing, or the same *)

(** Under a configuration with no rotation option, zero shifts, no square
    policy and scales 1, both transforms return the rectangle they were
    given, at any rotation and for any image size. *)
Theorem identity_configuration (o : Options.t) (rect : Rect.t)
    (nrect : NormalizedRect.t) (image_width image_height : Z)
    (Hrot : rotation_delta o = None)
    (Hshift : Options.shift_x o = 0 /\ Options.shift_y o = 0)
    (Hsquare : Options.square_long o = false
               /\ Options.square_short o = false)
    (Hscale : Options.scale_x o = 1 /\ Options.scale_y o = 1) :
  TransformRect o rect = rect
  /\ TransformNormalizedRect o nrect image_width image_height = nrect.
Proof.
  destruct Hshift as [Hsx Hsy], Hsquare as [Hl Hs], Hscale as [Hkx Hky].
  split.
  - unfold_transform; rewrite ?local_rotation_effective.
    rewrite Hsx, Hsy, Hl, Hs, Hkx, Hky.
    destruct rect as [x y w h r]; split_cases;
      unfold Rect.set_height, Rect.set_width, Rect.set_y_center,
        Rect.set_x_center; simpl; f_equal; ring.
  - unfold_transform; rewrite ?local_rotation_effective.
    rewrite Hsx, Hsy, Hl, Hs, Hkx, Hky.
    destruct nrect as [x y w h r]; split_cases;
      unfold NormalizedRect.set_height, NormalizedRect.set_width,
        NormalizedRect.set_y_center, NormalizedRect.set_x_center; simpl;
      f_equal; unfold Rdiv; ring.
Qed.

Lemma identity_configuration_witness :
  TransformRect identity_options rect_10_20 = rect_10_20
  /\ TransformNormalizedRect identity_options norm_rect_turned 100 50
     = norm_rect_turned.
Proof.
  apply (identity_configuration identity_options rect_10_20
           norm_rect_turned 100%Z 50%Z);
    [reflexivity | split; reflexivity | split; reflexivity
    | split; reflexivity].
Defined.

Lemma effective_rotation_full_turns (o1 o2 : Options.t) (d : R) (k : Z)
    (r : R) :
  rotation_delta o1 = Some d ->
  rotation_delta o2 = Some (d + 2 * PI * IZR k) ->
  effective_rotation o2 r = effective_rotation o1 r.
Proof.
  intros H1 H2; unfold effective_rotation; rewrite H1, H2.
  replace (r + (d + 2 * PI * IZR k)) with (r + d + 2 * PI * IZR k) by ring.
  apply wrap_add_turns.
Qed.

(** Two configurations whose rotation deltas differ by a whole number of
    full turns, and that agree on shifts, scales and square policy, give the
    same result in both transforms; it does not matter either whether the
    delta is given in radians or in degrees. *)
Theorem full_turns_make_no_difference (o1 o2 : Options.t) (d : R) (k : Z)
    (rect : Rect.t) (nrect : NormalizedRect.t)
    (image_width image_height : Z)
    (Hsame : same_but_rotation o1 o2)
    (Hd1 : rotation_delta o1 = Some d)
    (Hd2 : rotation_delta o2 = Some (d + 2 * PI * IZR k)) :
  TransformRect o2 rect = TransformRect o1 rect
  /\ TransformNormalizedRect o2 nrect image_width image_height
     = TransformNormalizedRect o1 nrect image_width image_height.
Proof.
  destruct Hsame as (Hkx & Hky & Hsx & Hsy & Hl & Hs).
  split; unfold_transform; rewrite ?local_rotation_effective;
    rewrite (effective_rotation_full_turns o1 o2 d k _ Hd1 Hd2);
    rewrite Hkx, Hky, Hsx, Hsy, Hl, Hs; reflexivity.
Qed.

Lemma full_turns_make_no_difference_witness :
  same_but_rotation quarter_turn_options five_quarter_turn_options
  /\ TransformRect five_quarter_turn_options rect_10_20
     = TransformRect quarter_turn_options rect_10_20.
Proof.
  assert (Hsame : same_but_rotation quarter_turn_options
                    five_quarter_turn_options)
    by (repeat split).
  split; [exact Hsame|].
  apply (full_turns_make_no_difference quarter_turn_options
           five_quarter_turn_options (PI * 90 / 180) 1 rect_10_20
           norm_rect_turned 100%Z 50%Z Hsame).
  - reflexivity.
  - unfold rotation_delta; simpl; f_equal; field.
Defined.

(** ** The sides after squaring *)

(** Under either square policy and equal scales, [TransformRect] returns a
    square, and [TransformNormalizedRect], in an image of positive width and
    height, returns a rectangle whose sides are equal in pixels. *)
Theorem squared_sides_are_equal (o : Options.t) (rect : Rect.t)
    (nrect : NormalizedRect.t) (image_width image_height : Z)
    (Hwidth : (0 < image_width)%Z) (Hheight : (0 < image_height)%Z)
    (Hpolicy : Options.square_long o || Options.square_short o = true)
    (Hscale : Options.scale_x o = Options.scale_y o) :
  Rect.width (TransformRect o rect) = Rect.height (TransformRect o rect)
  /\ (let out := TransformNormalizedRect o nrect image_width image_height in
      NormalizedRect.width out * IZR image_width
      = NormalizedRect.height out * IZR image_height).
Proof.
  apply IZR_lt in Hwidth, Hheight.
  destruct (TransformRect_size o rect) as [Hw Hh].
  destruct (TransformNormalizedRect_size o nrect image_width image_height)
    as [Hnw Hnh].
  cbv zeta; rewrite Hw, Hh, Hnw, Hnh, Hscale.
  destruct (Options.square_long o), (Options.square_short o);
    try discriminate; simpl; split; try reflexivity; field; lra.
Qed.

Lemma squared_sides_are_equal_witness :
  (0 < 100)%Z /\ (0 < 50)%Z
  /\ Rect.width (TransformRect square_short_options rect_10_20)
     = Rect.height (TransformRect square_short_options rect_10_20).
Proof.
  split; [reflexivity|]. split; [reflexivity|].
  apply (squared_sides_are_equal square_short_options rect_10_20
           norm_rect_example 100%Z 50%Z); reflexivity.
Defined.

(** Whatever the square policy, the side that [TransformRect] scales lies
    between the short and the long side of the input: for non-negative
    scales the width and height returned are bounded by the short and long
    side times the scale. *)
Theorem TransformRect_sides_bounded (o : Options.t) (rect : Rect.t)
    (Hx : 0 <= Options.scale_x o) (Hy : 0 <= Options.scale_y o) :
  let lo := Rmin (Rect.width rect) (Rect.height rect) in
  let hi := Rmax (Rect.width rect) (Rect.height rect) in
  lo * Options.scale_x o <= Rect.width (TransformRect o rect)
    <= hi * Options.scale_x o
  /\ lo * Options.scale_y o <= Rect.height (TransformRect o rect)
       <= hi * Options.scale_y o.
Proof.
  cbv zeta.
  destruct (TransformRect_size o rect) as [Hw Hh]; rewrite Hw, Hh.
  pose proof (Rmin_l (Rect.width rect) (Rect.height rect)).
  pose proof (Rmin_r (Rect.width rect) (Rect.height rect)).
  pose proof (Rmax_l (Rect.width rect) (Rect.height rect)).
  pose proof (Rmax_r (Rect.width rect) (Rect.height rect)).
  destruct (Options.square_long o), (Options.square_short o); simpl;
    repeat split; apply Rmult_le_compat_r; lra.
Qed.

Lemma TransformRect_sides_bounded_witness :
  0 <= Options.scale_x shift_scale_options
  /\ Rmin 10 20 * 2 <= Rect.width (TransformRect shift_scale_options
                                     rect_10_20) <= Rmax 10 20 * 2.
Proof.
  assert (H2 : 0 <= Options.scale_x shift_scale_options) by (simpl; lra).
  split; [exact H2|].
  apply (TransformRect_sides_bounded shift_scale_options rect_10_20 H2).
  simpl; lra.
Defined.

(** ** The contract and the records *)

(** [GetContract] succeeds exactly when the node has one of RECT and
    NORM_RECT but not both, and has IMAGE_SIZE whenever it has NORM_RECT; an
    IMAGE_SIZE beside RECT is accepted. *)
Theorem GetContract_ok_iff (ct : CalculatorContract) :
  fst (GetContract ct) = OkStatus <->
  (ct_has_RECT ct = true /\ ct_has_NORM_RECT ct = false)
  \/ (ct_has_RECT ct = false /\ ct_has_NORM_RECT ct = true
      /\ ct_has_IMAGE_SIZE ct = true).
Proof.
  unfold GetContract.
  destruct (ct_has_NORM_RECT ct) eqn:Hn, (ct_has_RECT ct) eqn:Hr,
    (ct_has_IMAGE_SIZE ct) eqn:Hi; simpl; rewrite ?Hn, ?Hr, ?Hi; simpl;
    intuition congruence.
Qed.

(** What [GetContract] declares.  When it fails it leaves the contract as it
    found it.  When it succeeds with RECT, the RECT input and output 0 are
    declared [Rect] and the other declarations are not touched, not even
    that of an IMAGE_SIZE input; when it succeeds with NORM_RECT, the
    NORM_RECT input and output 0 are declared [NormalizedRect] and
    IMAGE_SIZE a pair of integers. *)
Theorem GetContract_declares (ct : CalculatorContract) :
  let ct' := snd (GetContract ct) in
  (fst (GetContract ct) <> OkStatus -> ct' = ct)
  /\ (fst (GetContract ct) = OkStatus -> ct_has_RECT ct = true ->
      ct_RECT_type ct' = Some RectType
      /\ ct_output0_type ct' = Some RectType
      /\ ct_NORM_RECT_type ct' = ct_NORM_RECT_type ct
      /\ ct_IMAGE_SIZE_type ct' = ct_IMAGE_SIZE_type ct)
  /\ (fst (GetContract ct) = OkStatus -> ct_has_NORM_RECT ct = true ->
      ct_NORM_RECT_type ct' = Some NormalizedRectType
      /\ ct_output0_type ct' = Some NormalizedRectType
      /\ ct_IMAGE_SIZE_type ct' = Some IntPairType
      /\ ct_RECT_type ct' = ct_RECT_type ct).
Proof.
  unfold GetContract.
  destruct (ct_has_NORM_RECT ct) eqn:Hn, (ct_has_RECT ct) eqn:Hr,
    (ct_has_IMAGE_SIZE ct) eqn:Hi; simpl; rewrite ?Hn, ?Hr, ?Hi; simpl;
    repeat split; intros; try congruence; try contradiction.
Qed.

Lemma GetContract_declares_witness :
  fst (GetContract norm_rect_contract) = OkStatus
  /\ ct_has_NORM_RECT norm_rect_contract = true
  /\ ct_output0_type (snd (GetContract norm_rect_contract))
     = Some NormalizedRectType.
Proof.
  split; [reflexivity|]. split; [reflexivity|].
  destruct (GetContract_declares norm_rect_contract) as (_ & _ & Hnorm).
  destruct (Hnorm eq_refl eq_refl) as (_ & Hout & _).
  exact Hout.
Defined.

(** [Process] puts one packet on output 0 for each of RECT and NORM_RECT
    whose packet holds a rectangle at this timestamp, and none for an absent
    tag or an empty packet; every packet it puts carries the input
    timestamp. *)
Theorem Process_packets (o : Options.t) (cc : CalculatorContext) :
  length (snd (Process o cc))
  = (holds_value (cc_RECT cc) + holds_value (cc_NORM_RECT cc))%nat
  /\ (forall p, In p (snd (Process o cc)) ->
        packet_timestamp p = cc_InputTimestamp cc).
Proof.
  unfold Process, holds_value.
  destruct (cc_RECT cc) as [[r|]|], (cc_NORM_RECT cc) as [[n|]|]; simpl;
    split; try reflexivity; intros p Hin;
    repeat (destruct Hin as [<-|Hin]; [reflexivity|]); contradiction.
Qed.

(** Under a contract that [GetContract] accepted, for a record whose input
    tags are those of the contract, [Process] puts at most one packet on
    output 0, and a packet it puts holds a value of the type the contract
    declared for output 0. *)
Theorem Process_respects_contract (ct : CalculatorContract)
    (o : Options.t) (cc : CalculatorContext)
    (Hok : fst (GetContract ct) = OkStatus)
    (Hrect : Options.is_set (cc_RECT cc) = ct_has_RECT ct)
    (Hnorm : Options.is_set (cc_NORM_RECT cc) = ct_has_NORM_RECT ct) :
  (length (snd (Process o cc)) <= 1)%nat
  /\ (forall p, In p (snd (Process o cc)) ->
        ct_output0_type (snd (GetContract ct)) = Some (packet_type p)).
Proof.
  revert Hok; unfold GetContract, Process.
  destruct (ct_has_NORM_RECT ct) eqn:Hn, (ct_has_RECT ct) eqn:Hr,
    (ct_has_IMAGE_SIZE ct) eqn:Hi; simpl; rewrite ?Hn, ?Hr, ?Hi; simpl;
    intros Hok; try discriminate;
    destruct (cc_RECT cc) as [[r|]|], (cc_NORM_RECT cc) as [[n|]|];
    simpl in *; try discriminate;
    (split; [lia|]); intros p Hin;
    repeat (destruct Hin as [<-|Hin]; [reflexivity|]); contradiction.
Qed.

Lemma Process_respects_contract_witness :
  fst (GetContract norm_rect_contract) = OkStatus
  /\ (length (snd (Process square_long_options norm_rect_record)) <= 1)%nat.
Proof.
  split; [reflexivity|].
  apply (Process_respects_contract norm_rect_contract square_long_options
           norm_rect_record); reflexivity.
Defined.

Lemma Process_packets_witness :
  In (NormalizedRectPacket
        (TransformNormalizedRect square_long_options norm_rect_example
           100 50) 7)
     (snd (Process square_long_options norm_rect_record))
  /\ packet_timestamp
       (NormalizedRectPacket
          (TransformNormalizedRect square_long_options norm_rect_example
             100 50) 7)
     = cc_InputTimestamp norm_rect_record.
Proof.
  assert (Hin : In (NormalizedRectPacket
                      (TransformNormalizedRect square_long_options
                         norm_rect_example 100 50) 7)
                   (snd (Process square_long_options norm_rect_record)))
    by (left; reflexivity).
  split; [exact Hin|].
  exact (proj2 (Process_packets square_long_options norm_rect_record)
           _ Hin).
Defined.

(** ** The shift of a normalized rectangle, in pixels *)

(** In an image of positive width and height, the centre returned by
    [TransformNormalizedRect], measured in pixels, has moved by exactly the
    length of the local shift in pixels,
    [(width * imgW * shift_x, height * imgH * shift_y)], whatever the angle
    and however far from square the image is. *)
Theorem TransformNormalizedRect_shift_length (o : Options.t)
    (rect : NormalizedRect.t) (image_width image_height : Z)
    (Hwidth : (0 < image_width)%Z) (Hheight : (0 < image_height)%Z) :
  let out := TransformNormalizedRect o rect image_width image_height in
  let imgW := IZR image_width in
  let imgH := IZR image_height in
  ((NormalizedRect.x_center out - NormalizedRect.x_center rect) * imgW) ^ 2
  + ((NormalizedRect.y_center out - NormalizedRect.y_center rect) * imgH) ^ 2
  = (NormalizedRect.width rect * imgW * Options.shift_x o) ^ 2
    + (NormalizedRect.height rect * imgH * Options.shift_y o) ^ 2.
Proof.
  apply IZR_lt in Hwidth, Hheight.
  cbv zeta.
  destruct (TransformNormalizedRect_center o rect image_width image_height)
    as [Hx Hy].
  rewrite Hx, Hy, rotated_shift_normalized_turns by lra.
  simpl fst; simpl snd.
  set (a := effective_rotation o (NormalizedRect.rotation rect)).
  set (dx := NormalizedRect.width rect * IZR image_width
             * Options.shift_x o).
  set (dy := NormalizedRect.height rect * IZR image_height
             * Options.shift_y o).
  pose proof (sin2_cos2 a) as Hone; unfold Rsqr in Hone.
  replace ((NormalizedRect.x_center rect
            + (dx * cos a - dy * sin a) / IZR image_width
            - NormalizedRect.x_center rect) * IZR image_width)
    with (dx * cos a - dy * sin a) by (field; lra).
  replace ((NormalizedRect.y_center rect
            + (dx * sin a + dy * cos a) / IZR image_height
            - NormalizedRect.y_center rect) * IZR image_height)
    with (dx * sin a + dy * cos a) by (field; lra).
  replace ((dx * cos a - dy * sin a) ^ 2 + (dx * sin a + dy * cos a) ^ 2)
    with ((dx ^ 2 + dy ^ 2) * (sin a * sin a + cos a * cos a)) by ring.
  rewrite Hone; ring.
Qed.

Lemma TransformNormalizedRect_shift_length_witness :
  (0 < 100)%Z /\ (0 < 50)%Z
  /\ (let out :=
        TransformNormalizedRect quarter_turn_options norm_rect_turned 100 50
      in
      ((NormalizedRect.x_center out - 0.5) * 100) ^ 2
      + ((NormalizedRect.y_center out - 0.5) * 50) ^ 2
      = (0.2 * 100 * 0.5) ^ 2 + (0.1 * 50 * 0.25) ^ 2).
Proof.
  split; [reflexivity|]. split; [reflexivity|].
  apply (TransformNormalizedRect_shift_length quarter_turn_options
           norm_rect_turned 100%Z 50%Z); reflexivity.
Defined.
